(** * A to-do list: state, rendering and event handlers of [script.js]

    The script keeps one global [state] object (a filter flag, a validity
    flag and an array of to-do objects), projects it onto the document with
    [render], and mutates it from four listeners.  The to-do objects are
    shared by reference between [state.todos] and the click listeners of the
    rendered rows, so the model keeps an explicit object store. *)

From stdpp Require Import base list strings.

Open Scope string_scope.

(** ** Data model *)

(** A to-do object, [{ text, completed }]. *)
Record Item := { text : string; completed : bool }.

#[export] Instance Item_inhabited : Inhabited Item :=
  populate {| text := ""; completed := false |}.

#[export] Instance Item_eq_dec : EqDecision Item.
Proof. solve_decision. Defined.

(** A reference to a to-do object: its address in the object store. *)
Definition ref := nat.

(** The global [state] object.  [todos] is an array of references. *)
Record State := {
  hideCompleted : bool;
  formIsValid : bool;
  todos : list ref;
}.

(** A rendered [<li>]: its text node, its [className], and the object that
    its click listener has captured. *)
Record Li := { li_text : string; li_className : string; li_item : ref }.

#[export] Instance Li_eq_dec : EqDecision Li.
Proof. solve_decision. Defined.

(** The part of the document the script touches: the children of
    [#todos ul], the content of [#todos pre], the [className] of
    [#todos form], the value of the text input (first control of the form,
    also the target of [keyup]) and the [checked] flag of the checkbox. *)
Record Dom := {
  ul : list Li;
  pre_innerHTML : string;
  form_className : string;
  textEl_value : string;
  checkbox_checked : bool;
}.

(** Calls into the host made by the script, in the order they are made. *)
Inductive Effect :=
| PreventDefault
| StopPropagation
| Remove (li : Li)
| AppendChild (li : Li)
| SetFormClassName (c : string)
| SetPreInnerHTML (v : option string)
| SetValue (v : string)
| Focus.

Record World := {
  heap : list Item;
  state : State;
  dom : Dom;
  trace : list Effect;
}.

(** ** JavaScript coercions used by the script *)

(** [ToBoolean] on a string: only the empty string is falsy. *)
Definition truthy_string (s : string) : bool :=
  match s with
  | EmptyString => false
  | String _ _ => true
  end.

(** [ToBoolean] on an array length: only [0] is falsy. *)
Definition truthy_number (n : nat) : bool :=
  match n with
  | O => false
  | S _ => true
  end.

(** The [innerHTML] setter turns [null] into the empty string. *)
Definition innerHTML_of (v : option string) : string :=
  match v with
  | Some s => s
  | None => ""
  end.

(** ** Store and state updates *)

Definition deref (w : World) (item : ref) : Item := heap w !!! item.

Definition emit (e : Effect) (w : World) : World :=
  {| heap := heap w; state := state w; dom := dom w;
     trace := trace w ++ [e] |}.

Definition set_dom (d : Dom) (w : World) : World :=
  {| heap := heap w; state := state w; dom := d; trace := trace w |}.

Definition set_state (s : State) (w : World) : World :=
  {| heap := heap w; state := s; dom := dom w; trace := trace w |}.

Definition set_heap (h : list Item) (w : World) : World :=
  {| heap := h; state := state w; dom := dom w; trace := trace w |}.

(** [state.todos.push({...})]: the object literal is a fresh object. *)
Definition todos_push (it : Item) (w : World) : World :=
  let r := length (heap w) in
  let w := set_heap (heap w ++ [it]) w in
  set_state {| hideCompleted := hideCompleted (state w);
               formIsValid := formIsValid (state w);
               todos := todos (state w) ++ [r] |} w.

(** ** Rendering *)

Definition getVisibleTodos (w : World) : list ref :=
  List.filter
    (fun item =>
       if hideCompleted (state w) then negb (completed (deref w item))
       else true)
    (todos (state w)).

(** Every element below [#todos ul] is an [<li>] made by the script; each
    one is removed. *)
Definition resetDOMList (w : World) : World :=
  fold_left
    (fun w li =>
       emit (Remove li)
         (set_dom {| ul := tail (ul (dom w));
                     pre_innerHTML := pre_innerHTML (dom w);
                     form_className := form_className (dom w);
                     textEl_value := textEl_value (dom w);
                     checkbox_checked := checkbox_checked (dom w) |} w))
    (ul (dom w)) w.

Definition renderDOMListItem (item : ref) (w : World) : World :=
  let li := {| li_text := text (deref w item);
               li_className :=
                 if completed (deref w item) then "is-done" else "";
               li_item := item |} in
  emit (AppendChild li)
    (set_dom {| ul := ul (dom w) ++ [li];
                pre_innerHTML := pre_innerHTML (dom w);
                form_className := form_className (dom w);
                textEl_value := textEl_value (dom w);
                checkbox_checked := checkbox_checked (dom w) |} w).

Definition renderDOMList (w : World) : World :=
  fold_left (fun w item => renderDOMListItem item w) (getVisibleTodos w) w.

Definition helper_text : string := "Create your first task!".

Definition getHelperMessage (w : World) : option string :=
  if truthy_number (length (getVisibleTodos w)) then None
  else Some helper_text.

Definition renderDOMHelperMessage (w : World) : World :=
  let m := getHelperMessage w in
  emit (SetPreInnerHTML m)
    (set_dom {| ul := ul (dom w);
                pre_innerHTML := innerHTML_of m;
                form_className := form_className (dom w);
                textEl_value := textEl_value (dom w);
                checkbox_checked := checkbox_checked (dom w) |} w).

Definition getFormClassName (w : World) : string :=
  if formIsValid (state w) then "is-valid" else "".

Definition renderDOMFormStatus (w : World) : World :=
  let c := getFormClassName w in
  emit (SetFormClassName c)
    (set_dom {| ul := ul (dom w);
                pre_innerHTML := pre_innerHTML (dom w);
                form_className := c;
                textEl_value := textEl_value (dom w);
                checkbox_checked := checkbox_checked (dom w) |} w).

Definition render (w : World) : World :=
  let w := resetDOMList w in
  let w := renderDOMList w in
  let w := renderDOMFormStatus w in
  renderDOMHelperMessage w.

(** ** Listeners *)

(** The click listener installed on a row: it owns a reference to the
    object the row was rendered from. *)
Definition li_click (item : ref) (w : World) : World :=
  let it := deref w item in
  let w :=
    set_heap
      (<[item := {| text := text it; completed := negb (completed it) |}]>
         (heap w)) w in
  render w.

Definition set_textEl_value (v : string) (w : World) : World :=
  emit (SetValue v)
    (set_dom {| ul := ul (dom w);
                pre_innerHTML := pre_innerHTML (dom w);
                form_className := form_className (dom w);
                textEl_value := v;
                checkbox_checked := checkbox_checked (dom w) |} w).

Definition handleSubmit (w : World) : World :=
  let w := emit PreventDefault w in
  let w := emit StopPropagation w in
  if negb (truthy_string (textEl_value (dom w))) then w
  else
    let w :=
      todos_push {| text := textEl_value (dom w); completed := false |} w in
    let w := render w in
    let w := set_textEl_value "" w in
    emit Focus w.

Definition handleForm (w : World) : World :=
  let len := String.length (textEl_value (dom w)) in
  let w :=
    set_state {| hideCompleted := hideCompleted (state w);
                 formIsValid := (0 <? len)%nat;
                 todos := todos (state w) |} w in
  render w.

Definition handleHide (w : World) : World :=
  let w :=
    set_state {| hideCompleted := checkbox_checked (dom w);
                 formIsValid := formIsValid (state w);
                 todos := todos (state w) |} w in
  render w.

(** ** The page as a transition system *)

(** What the browser can deliver between two runs of the script's code. *)
Inductive Event :=
| Typed (v : string)     (* the user edits the text field; no listener *)
| Keyup                  (* [keyup] on the text field *)
| Submit                 (* [submit] on the form *)
| ClickCheckbox          (* [click] on the checkbox, which it toggles *)
| ClickLi (k : nat).     (* [click] on the [k]-th rendered row *)

Definition click_li (k : nat) (w : World) : World :=
  match ul (dom w) !! k with
  | Some li => li_click (li_item li) w
  | None => w
  end.

Definition step (ev : Event) (w : World) : World :=
  match ev with
  | Typed v =>
      set_dom {| ul := ul (dom w);
                 pre_innerHTML := pre_innerHTML (dom w);
                 form_className := form_className (dom w);
                 textEl_value := v;
                 checkbox_checked := checkbox_checked (dom w) |} w
  | Keyup => handleForm w
  | Submit => handleSubmit w
  | ClickCheckbox =>
      handleHide
        (set_dom {| ul := ul (dom w);
                    pre_innerHTML := pre_innerHTML (dom w);
                    form_className := form_className (dom w);
                    textEl_value := textEl_value (dom w);
                    checkbox_checked := negb (checkbox_checked (dom w)) |} w)
  | ClickLi k => click_li k w
  end.

(** The three seed objects and the initial [state]. *)
Definition seed_heap : list Item :=
  [ {| text := "buy milk"; completed := true |};
    {| text := "clean kitchen"; completed := false |};
    {| text := "learn js"; completed := false |} ].

Definition seed_state : State :=
  {| hideCompleted := false; formIsValid := false; todos := [0; 1; 2] |}.

(** The script ends with a call of [render], whatever the page held. *)
Definition boot (d : Dom) : World :=
  render {| heap := seed_heap; state := seed_state; dom := d; trace := [] |}.

Inductive reachable : World -> Prop :=
| reachable_boot d : reachable (boot d)
| reachable_step ev w : reachable w -> reachable (step ev w).

Definition run (evs : list Event) (w : World) : World :=
  fold_left (fun w ev => step ev w) evs w.

(** ** The view as a function of the state *)

Record View := {
  rows : list Li;
  helper : string;
  status : string;
}.

Definition view_of (d : Dom) : View :=
  {| rows := ul d; helper := pre_innerHTML d; status := form_className d |}.

(** The items list: the objects [state.todos] refers to, in order. *)
Definition items (w : World) : list Item :=
  fmap (deref w) (todos (state w)).

(** The visibility rule in the words of the specification. *)
Definition spec_visible (h : list Item) (hide : bool) (item : ref) : Prop :=
  hide = false \/ completed (h !!! item) = false.

#[export] Instance spec_visible_dec h hide item :
  Decision (spec_visible h hide item).
Proof. unfold spec_visible. apply _. Defined.

Definition spec_filter (h : list Item) (hide : bool) (l : list ref)
  : list ref :=
  filter (spec_visible h hide) l.

Definition spec_row (h : list Item) (item : ref) : Li :=
  {| li_text := text (h !!! item);
     li_className := if completed (h !!! item) then "is-done" else "";
     li_item := item |}.

Definition spec_render (h : list Item) (visible : list ref) (valid : bool)
  : View :=
  {| rows := fmap (spec_row h) visible;
     helper := match visible with [] => helper_text | _ :: _ => "" end;
     status := if valid then "is-valid" else "" |}.

Definition spec_view (w : World) : View :=
  spec_render (heap w)
    (spec_filter (heap w) (hideCompleted (state w)) (todos (state w)))
    (formIsValid (state w)).

Definition in_sync (w : World) : Prop := view_of (dom w) = spec_view w.

(** No dangling reference and no object listed twice.  Object literals are
    fresh and nothing is ever deleted, so this holds in every reachable
    world ([reachable_heap_ok]). *)
Definition heap_ok (w : World) : Prop :=
  NoDup (todos (state w)) /\
  Forall (fun item => (item < length (heap w))%nat) (todos (state w)).

(** The host calls one run of [render] makes. *)
Definition render_effects (w : World) : list Effect :=
  fmap Remove (ul (dom w)) ++
  fmap AppendChild (fmap (spec_row (heap w)) (getVisibleTodos w)) ++
  [SetFormClassName (getFormClassName w);
   SetPreInnerHTML (getHelperMessage w)].

(** ** Auxiliary definitions for the statements *)

(** An object with its [completed] flag negated, as the click listener
    leaves it. *)
Definition toggled (it : Item) : Item :=
  {| text := text it; completed := negb (completed it) |}.

Definition toggle_marker (li : Li) : Li :=
  {| li_text := li_text li;
     li_className := if String.eqb (li_className li) "is-done"
                     then "" else "is-done";
     li_item := li_item li |}.

(** Whether the listener run for [ev] gets to an assignment to the state:
    [handleForm] and [handleHide] always do, [handleSubmit] only past its
    guard, and a click only where a row exists. *)
Definition mutates (ev : Event) (w : World) : bool :=
  match ev with
  | Typed _ => false
  | Keyup => true
  | Submit => truthy_string (textEl_value (dom w))
  | ClickCheckbox => true
  | ClickLi k =>
      match ul (dom w) !! k with
      | Some _ => true
      | None => false
      end
  end.

(** The rendering half of the row-click property read literally: after a
    click on row [k], the document still has a row for the same object and
    that row is the old one with its done marker switched. *)
Definition marker_flips_on_row (w : World) (k : nat) : Prop :=
  forall li : Li,
    ul (dom w) !! k = Some li ->
    exists li' : Li,
      li' ∈ ul (dom (click_li k w)) /\
      li_item li' = li_item li /\
      li' = toggle_marker li.

(** ** Concrete pages used as test inputs *)

Definition empty_page : Dom :=
  {| ul := []; pre_innerHTML := ""; form_className := "";
     textEl_value := ""; checkbox_checked := false |}.

(** The page right after the script has run. *)
Definition w_seed : World := boot empty_page.

(** The seed page with the filter switched on. *)
Definition w_hidden : World := step ClickCheckbox w_seed.

(** The seed page with three blanks typed into the field. *)
Definition w_blank : World := step (Typed "   ") w_seed.

(** The seed page with ["buy eggs"] typed into the field. *)
Definition w_eggs : World := run [Typed "buy eggs"; Keyup] w_seed.

(** ** Auxiliary definitions for further properties *)

(** Two worlds that differ at most in the host calls made so far. *)
Definition same_page (w1 w2 : World) : Prop :=
  heap w1 = heap w2 /\ state w1 = state w2 /\ dom w1 = dom w2.

(** The filter flag of the state is the [checked] flag of the checkbox. *)
Definition flag_follows_checkbox (w : World) : Prop :=
  hideCompleted (state w) = checkbox_checked (dom w).


(** Every row shows the object its listener is bound to, that object is
    listed in [state.todos], and no two rows are bound to one object. *)
Definition rows_bound (w : World) : Prop :=
  NoDup (li_item <$> ul (dom w)) /\
  Forall
    (fun li => li = spec_row (heap w) (li_item li) /\
               li_item li ∈ todos (state w))
    (ul (dom w)).

(** A page whose checkbox is checked in the markup and whose list holds a
    stale row. *)
Definition checked_page : Dom :=
  {| ul := [ {| li_text := "stale"; li_className := ""; li_item := 7 |} ];
     pre_innerHTML := "old"; form_className := "x";
     textEl_value := ""; checkbox_checked := true |}.

(** ** What [render] computes *)

Section Rendering.

Lemma resetDOMList_fold (l : list Li) (w : World) :
  fold_left
    (fun w li =>
       emit (Remove li)
         (set_dom {| ul := tail (ul (dom w));
                     pre_innerHTML := pre_innerHTML (dom w);
                     form_className := form_className (dom w);
                     textEl_value := textEl_value (dom w);
                     checkbox_checked := checkbox_checked (dom w) |} w))
    l w
  = {| heap := heap w; state := state w;
       dom := {| ul := drop (length l) (ul (dom w));
                 pre_innerHTML := pre_innerHTML (dom w);
                 form_className := form_className (dom w);
                 textEl_value := textEl_value (dom w);
                 checkbox_checked := checkbox_checked (dom w) |};
       trace := trace w ++ fmap Remove l |}.
Proof.
  revert w. induction l as [|li l IH]; intros [h s [u p f v c] t]; cbn.
  - by rewrite app_nil_r.
  - rewrite IH. cbn. rewrite <- app_assoc. cbn.
    destruct u; cbn; by rewrite ?drop_nil.
Qed.

Lemma resetDOMList_eq (w : World) :
  resetDOMList w
  = {| heap := heap w; state := state w;
       dom := {| ul := [];
                 pre_innerHTML := pre_innerHTML (dom w);
                 form_className := form_className (dom w);
                 textEl_value := textEl_value (dom w);
                 checkbox_checked := checkbox_checked (dom w) |};
       trace := trace w ++ fmap Remove (ul (dom w)) |}.
Proof.
  unfold resetDOMList. rewrite resetDOMList_fold.
  by rewrite drop_all.
Qed.

Lemma renderDOMList_fold (l : list ref) (w : World) :
  fold_left (fun w item => renderDOMListItem item w) l w
  = {| heap := heap w; state := state w;
       dom := {| ul := ul (dom w) ++ fmap (spec_row (heap w)) l;
                 pre_innerHTML := pre_innerHTML (dom w);
                 form_className := form_className (dom w);
                 textEl_value := textEl_value (dom w);
                 checkbox_checked := checkbox_checked (dom w) |};
       trace := trace w ++ fmap AppendChild (fmap (spec_row (heap w)) l) |}.
Proof.
  revert w. induction l as [|item l IH]; intros [h s [u p f v c] t]; cbn.
  - by rewrite !app_nil_r.
  - rewrite IH. cbn. by rewrite <- !app_assoc.
Qed.

Lemma render_eq (w : World) :
  render w
  = {| heap := heap w; state := state w;
       dom := {| ul := fmap (spec_row (heap w)) (getVisibleTodos w);
                 pre_innerHTML := innerHTML_of (getHelperMessage w);
                 form_className := getFormClassName w;
                 textEl_value := textEl_value (dom w);
                 checkbox_checked := checkbox_checked (dom w) |};
       trace := trace w ++ render_effects w |}.
Proof.
  unfold render, renderDOMList. rewrite resetDOMList_eq.
  rewrite renderDOMList_fold. destruct w as [h s [u p f v c] t]. cbn.
  unfold renderDOMHelperMessage, renderDOMFormStatus, render_effects,
    getHelperMessage, getFormClassName, getVisibleTodos, deref, emit,
    set_dom.
  cbn. by rewrite <- !app_assoc.
Qed.

(** The boolean test of the source and the rule of the specification
    select the same references. *)
Lemma visible_test_spec (h : list Item) (hide : bool) (item : ref) :
  (if hide then negb (completed (h !!! item)) else true) = true
  <-> spec_visible h hide item.
Proof.
  unfold spec_visible.
  destruct hide, (completed (h !!! item)); cbn; intuition congruence.
Qed.

Lemma getVisibleTodos_spec (w : World) :
  getVisibleTodos w
  = spec_filter (heap w) (hideCompleted (state w)) (todos (state w)).
Proof.
  unfold getVisibleTodos, spec_filter, deref.
  induction (todos (state w)) as [|item l IH]; [done|].
  rewrite filter_cons. cbn [List.filter]. rewrite IH.
  pose proof (visible_test_spec (heap w) (hideCompleted (state w)) item)
    as Hv.
  destruct (decide (spec_visible _ _ item)) as [Hs|Hs].
  - apply Hv in Hs. by rewrite Hs.
  - destruct (if hideCompleted (state w) then _ else _); [|done].
    exfalso. apply Hs, Hv. done.
Qed.

Lemma render_in_sync (w : World) : in_sync (render w).
Proof.
  unfold in_sync, spec_view. rewrite render_eq. cbn.
  unfold view_of, spec_render. cbn.
  rewrite <- getVisibleTodos_spec.
  f_equal. unfold getHelperMessage.
  change (getVisibleTodos _) with (getVisibleTodos w).
  by destruct (getVisibleTodos w).
Qed.

End Rendering.

(** ** The listeners, unfolded *)

Section Listeners.

Lemma truthy_string_empty (s : string) : truthy_string s = false <-> s = "".
Proof. destruct s; cbn; intuition congruence. Qed.

Lemma handleSubmit_empty (w : World) :
  textEl_value (dom w) = "" ->
  handleSubmit w
  = {| heap := heap w; state := state w; dom := dom w;
       trace := trace w ++ [PreventDefault; StopPropagation] |}.
Proof.
  intros Hv. unfold handleSubmit. cbn. rewrite Hv. cbn.
  unfold emit. cbn. by rewrite <- app_assoc.
Qed.

Lemma handleSubmit_nonempty (w : World) :
  textEl_value (dom w) <> "" ->
  handleSubmit w
  = emit Focus
      (set_textEl_value ""
         (render
            (todos_push
               {| text := textEl_value (dom w); completed := false |}
               (emit StopPropagation (emit PreventDefault w))))).
Proof.
  intros Hv. unfold handleSubmit. cbn.
  destruct (truthy_string (textEl_value (dom w))) eqn:E; [done|].
  by apply truthy_string_empty in E.
Qed.

Lemma in_sync_ext (w1 w2 : World) :
  heap w1 = heap w2 -> state w1 = state w2 ->
  view_of (dom w1) = view_of (dom w2) ->
  in_sync w1 -> in_sync w2.
Proof.
  unfold in_sync, spec_view. intros <- <- <-. done.
Qed.

Lemma handleSubmit_nonempty_in_sync (w : World) :
  textEl_value (dom w) <> "" -> in_sync (handleSubmit w).
Proof.
  intros Hv. rewrite handleSubmit_nonempty by done.
  eapply in_sync_ext; [| | |apply render_in_sync]; done.
Qed.

Lemma handleSubmit_in_sync (w : World) :
  in_sync w -> in_sync (handleSubmit w).
Proof.
  intros Hs. destruct (decide (textEl_value (dom w) = "")) as [Hv|Hv].
  - rewrite handleSubmit_empty by done.
    eapply in_sync_ext; [| | |exact Hs]; done.
  - by apply handleSubmit_nonempty_in_sync.
Qed.

Lemma click_li_in_sync (k : nat) (w : World) :
  in_sync w -> in_sync (click_li k w).
Proof.
  intros Hs. unfold click_li.
  destruct (ul (dom w) !! k); [apply render_in_sync | done].
Qed.

Lemma step_in_sync (ev : Event) (w : World) :
  in_sync w -> in_sync (step ev w).
Proof.
  intros Hs. destruct ev; cbn.
  - eapply in_sync_ext; [| | |exact Hs]; done.
  - apply render_in_sync.
  - by apply handleSubmit_in_sync.
  - apply render_in_sync.
  - by apply click_li_in_sync.
Qed.

Lemma reachable_in_sync (w : World) : reachable w -> in_sync w.
Proof.
  induction 1 as [d|ev w _ IH]; [apply render_in_sync|].
  by apply step_in_sync.
Qed.

(** *** The object store stays well formed *)

Lemma heap_ok_ext (w1 w2 : World) :
  heap w1 = heap w2 -> state w1 = state w2 -> heap_ok w1 -> heap_ok w2.
Proof. unfold heap_ok. by intros <- <-. Qed.

Lemma render_heap (w : World) : heap (render w) = heap w.
Proof. by rewrite render_eq. Qed.

Lemma render_state (w : World) : state (render w) = state w.
Proof. by rewrite render_eq. Qed.

Lemma heap_ok_render (w : World) : heap_ok w -> heap_ok (render w).
Proof.
  apply heap_ok_ext; [by rewrite render_heap | by rewrite render_state].
Qed.

Lemma heap_ok_todos_push (it : Item) (w : World) :
  heap_ok w -> heap_ok (todos_push it w).
Proof.
  intros [Hnd Hlt]. unfold heap_ok, todos_push. cbn. split.
  - apply NoDup_app. split_and!; [done| |apply NoDup_singleton].
    intros x Hx ->%list_elem_of_singleton.
    rewrite Forall_forall in Hlt. apply Hlt in Hx. lia.
  - rewrite length_app. cbn. apply Forall_app. split.
    + eapply Forall_impl; [exact Hlt|]. cbn. intros; lia.
    + apply Forall_singleton. lia.
Qed.

Lemma heap_ok_li_click (item : ref) (w : World) :
  heap_ok w -> heap_ok (li_click item w).
Proof.
  intros [Hnd Hlt]. apply heap_ok_render. unfold heap_ok. cbn.
  by rewrite length_insert.
Qed.

Lemma heap_ok_handleSubmit (w : World) :
  heap_ok w -> heap_ok (handleSubmit w).
Proof.
  intros Hok. destruct (decide (textEl_value (dom w) = "")) as [Hv|Hv].
  - by rewrite handleSubmit_empty.
  - rewrite handleSubmit_nonempty by done.
    assert (heap_ok (emit StopPropagation (emit PreventDefault w))) as H0
      by exact Hok.
    eapply heap_ok_ext;
      [| |apply heap_ok_render, heap_ok_todos_push, H0]; done.
Qed.

Lemma heap_ok_step (ev : Event) (w : World) :
  heap_ok w -> heap_ok (step ev w).
Proof.
  intros Hok. destruct ev; cbn.
  - done.
  - by apply heap_ok_render.
  - by apply heap_ok_handleSubmit.
  - by apply heap_ok_render.
  - unfold click_li. destruct (ul (dom w) !! k); [|done].
    by apply heap_ok_li_click.
Qed.

Lemma heap_ok_boot (d : Dom) : heap_ok (boot d).
Proof.
  apply heap_ok_render. split; cbn.
  - apply (bool_decide_unpack (NoDup [0; 1; 2])). by vm_compute.
  - repeat constructor.
Qed.

Lemma reachable_heap_ok (w : World) : reachable w -> heap_ok w.
Proof.
  induction 1 as [d|ev w _ IH]; [apply heap_ok_boot|].
  by apply heap_ok_step.
Qed.

End Listeners.

(** ** Clicking a row *)

Section Click.


Lemma li_click_eq (item : ref) (w : World) :
  li_click item w
  = render (set_heap (<[item := toggled (deref w item)]> (heap w)) w).
Proof. done. Qed.

Lemma spec_row_insert_ne (h : list Item) (r r' : ref) (it : Item) :
  r <> r' -> spec_row (<[r := it]> h) r' = spec_row h r'.
Proof.
  intros Hne. unfold spec_row. by rewrite list_lookup_total_insert_ne.
Qed.

Lemma spec_row_insert_eq (h : list Item) (r : ref) :
  (r < length h)%nat ->
  spec_row (<[r := toggled (h !!! r)]> h) r = toggle_marker (spec_row h r).
Proof.
  intros Hlt. unfold spec_row, toggle_marker.
  rewrite list_lookup_total_insert_eq by done. cbn.
  by destruct (completed (h !!! r)).
Qed.

Lemma filter_agree_on (P P' : ref -> Prop)
    `{!forall x, Decision (P x)} `{!forall x, Decision (P' x)}
    (l : list ref) :
  (forall x, x ∈ l -> P' x <-> P x) -> filter P' l = filter P l.
Proof.
  induction l as [|x l IH]; intros Hagree; [done|].
  rewrite !filter_cons.
  rewrite IH by (intros y Hy; apply Hagree; by right).
  destruct (decide (P x)) as [HP|HP].
  - rewrite (decide_True (P := P' x)); [done|].
    apply Hagree; [by left|done].
  - rewrite (decide_False (P := P' x)); [done|].
    intros HP'. apply HP, Hagree; [by left|done].
Qed.

(** Dropping one element of a duplicate-free list from a filter removes
    exactly its position in the filtered list. *)
Lemma filter_drop_one (P P' : ref -> Prop)
    `{!forall x, Decision (P x)} `{!forall x, Decision (P' x)}
    (l : list ref) (k : nat) (r : ref) :
  NoDup l ->
  filter P l !! k = Some r ->
  (forall x, x <> r -> P' x <-> P x) ->
  ~ P' r ->
  filter P' l = delete k (filter P l).
Proof.
  intros Hnd Hk Hagree Hr. revert k Hnd Hk.
  induction l as [|x l IH]; intros k Hnd Hk; [done|].
  apply NoDup_cons in Hnd as [Hx Hnd].
  rewrite filter_cons in Hk. rewrite !filter_cons.
  destruct (decide (x = r)) as [->|Hne].
  - assert (P r) as HPr.
    { destruct (decide (P r)); [done|].
      apply list_elem_of_lookup_2, list_elem_of_filter in Hk as [_ ?].
      done. }
    rewrite decide_True in Hk by done.
    rewrite (decide_True (P := P r)) by done.
    rewrite (decide_False (P := P' r)) by done.
    destruct k as [|k]; cbn in Hk.
    + cbn. apply filter_agree_on.
      intros y Hy. apply Hagree. by intros ->.
    + apply list_elem_of_lookup_2, list_elem_of_filter in Hk as [_ ?].
      done.
  - specialize (Hagree x Hne).
    destruct (decide (P x)) as [HP|HP].
    + rewrite (decide_True (P := P' x)) by by apply Hagree.
      destruct k as [|k]; cbn in Hk; [congruence|].
      cbn. f_equal. by apply IH.
    + rewrite (decide_False (P := P' x)) by by rewrite Hagree.
      by apply IH.
Qed.

End Click.


(** ** Properties of the filter and of the helper message *)

Example seed_scenario :
  li_text <$> ul (dom w_hidden) = ["clean kitchen"; "learn js"]
  /\ pre_innerHTML (dom w_hidden) = ""
  /\ getHelperMessage w_hidden = None.
Proof. by vm_compute. Qed.

Example helper_shown_when_all_hidden :
  let w := run [ClickLi 1; ClickLi 2; ClickCheckbox] w_seed in
  ul (dom w) = [] /\ pre_innerHTML (dom w) = "Create your first task!".
Proof. by vm_compute. Qed.

(** C2: the references selected for rendering are exactly those of
    [state.todos] whose object satisfies [hideCompleted = false] or
    [completed = false]; they are selected with their multiplicity and in
    the order of [state.todos]. *)
Theorem C2_visible_todos (w : World) :
  getVisibleTodos w
  = spec_filter (heap w) (hideCompleted (state w)) (todos (state w))
  /\ (forall item : ref,
        item ∈ getVisibleTodos w <->
        item ∈ todos (state w) /\
        (hideCompleted (state w) = false \/
         completed (deref w item) = false))
  /\ sublist (getVisibleTodos w) (todos (state w)).
Proof.
  rewrite getVisibleTodos_spec. unfold spec_filter. split_and!.
  - done.
  - intros item. rewrite list_elem_of_filter. unfold spec_visible, deref.
    tauto.
  - apply sublist_filter.
Qed.

(** C6: the helper message is the fixed, non-empty text when no row is
    visible and is absent ([null], shown as the empty content) as soon as
    one row is visible; [render] writes exactly that into [#todos pre]. *)
Theorem C6_helper_message (w : World) :
  (0 < String.length helper_text)%nat
  /\ getHelperMessage w
     = (if decide (length (getVisibleTodos w) = 0%nat)
        then Some helper_text else None)
  /\ pre_innerHTML (dom (render w))
     = (if decide (length (getVisibleTodos w) = 0%nat)
        then helper_text else "").
Proof.
  split; [cbn; lia|]. rewrite render_eq. cbn. unfold getHelperMessage.
  by destruct (getVisibleTodos w).
Qed.

(** ** Properties of the filter and validity listeners *)

(** C7: [handleHide] stores the checkbox's [checked] flag in
    [hideCompleted] and leaves the rest of the state alone: same objects,
    same [todos] array (length, elements, order), same [formIsValid]. *)
Theorem C7_handleHide_frame (w : World) :
  hideCompleted (state (handleHide w)) = checkbox_checked (dom w)
  /\ formIsValid (state (handleHide w)) = formIsValid (state w)
  /\ todos (state (handleHide w)) = todos (state w)
  /\ heap (handleHide w) = heap w
  /\ items (handleHide w) = items w
  /\ length (items (handleHide w)) = length (items w).
Proof.
  unfold handleHide, items, deref.
  rewrite render_state, render_heap. by cbn.
Qed.

(** C8: [handleForm] sets [formIsValid] to [length > 0] of the field's
    value, re-renders, touches nothing else in the state, and running it a
    second time on the same value changes neither state nor document. *)
Theorem C8_handleForm (w : World) :
  let w' := handleForm w in
  formIsValid (state w')
    = (0 <? String.length (textEl_value (dom w)))%nat
  /\ (formIsValid (state w') = true
      <-> (String.length (textEl_value (dom w)) > 0)%nat)
  /\ hideCompleted (state w') = hideCompleted (state w)
  /\ todos (state w') = todos (state w)
  /\ heap w' = heap w
  /\ textEl_value (dom w') = textEl_value (dom w)
  /\ in_sync w'
  /\ trace w'
     = (trace w ++
        render_effects
          (set_state
             {| hideCompleted := hideCompleted (state w);
                formIsValid :=
                  (0 <? String.length (textEl_value (dom w)))%nat;
                todos := todos (state w) |} w))%list
  /\ heap (handleForm w') = heap w'
  /\ state (handleForm w') = state w'
  /\ dom (handleForm w') = dom w'.
Proof.
  cbn zeta. split_and!;
    try (unfold handleForm; rewrite ?render_eq; cbn; done).
  - unfold handleForm. rewrite render_state. unfold set_state.
    cbn [state formIsValid]. apply Nat.ltb_lt.
  - apply render_in_sync.
Qed.

(** ** Properties of the add-item listener *)

Section Submit.

Lemma deref_push_old (it : Item) (w : World) (item : ref) :
  (item < length (heap w))%nat ->
  deref (todos_push it w) item = deref w item.
Proof.
  intros Hlt. unfold deref, todos_push. cbn.
  by rewrite lookup_total_app_l.
Qed.

Lemma deref_push_new (it : Item) (w : World) :
  deref (todos_push it w) (length (heap w)) = it.
Proof.
  unfold deref, todos_push. cbn.
  by rewrite list_lookup_total_middle.
Qed.

Lemma items_todos_push (it : Item) (w : World) :
  heap_ok w -> items (todos_push it w) = (items w ++ [it])%list.
Proof.
  intros [_ Hlt]. unfold items.
  change (todos (state (todos_push it w)))
    with (todos (state w) ++ [length (heap w)])%list.
  rewrite fmap_app. cbn. rewrite deref_push_new. f_equal.
  apply Forall_fmap_ext_1. eapply Forall_impl; [exact Hlt|].
  intros item Hi. by apply deref_push_old.
Qed.

(** A new object is not completed, so it passes the filter whatever the
    flag is. *)
Lemma getVisibleTodos_todos_push (v : string) (w : World) :
  heap_ok w ->
  getVisibleTodos (todos_push {| text := v; completed := false |} w)
  = (getVisibleTodos w ++ [length (heap w)])%list.
Proof.
  intros [_ Hlt]. unfold getVisibleTodos.
  change (todos (state (todos_push _ w)))
    with (todos (state w) ++ [length (heap w)])%list.
  change (hideCompleted (state (todos_push _ w)))
    with (hideCompleted (state w)).
  rewrite List.filter_app. cbn [List.filter].
  rewrite deref_push_new. cbn [completed negb].
  replace (if hideCompleted (state w) then true else true) with true
    by by destruct (hideCompleted (state w)).
  f_equal. apply List.filter_ext_in. intros item Hin.
  rewrite deref_push_old; [done|].
  rewrite Forall_forall in Hlt. by apply Hlt, list_elem_of_In.
Qed.

Lemma items_ext (w1 w2 : World) :
  heap w1 = heap w2 -> state w1 = state w2 -> items w1 = items w2.
Proof. unfold items, deref. by intros -> ->. Qed.

Lemma handleSubmit_nonempty_items (w : World) :
  heap_ok w -> textEl_value (dom w) <> "" ->
  items (handleSubmit w)
  = (items w ++ [{| text := textEl_value (dom w); completed := false |}])
      %list.
Proof.
  intros Hok Hv. rewrite handleSubmit_nonempty by done.
  rewrite <- (items_todos_push _ w) by done.
  apply items_ext; unfold emit at 1, set_textEl_value, emit at 1, set_dom;
    cbn [heap state]; by rewrite ?render_heap, ?render_state.
Qed.

End Submit.

(** C3: submitting while the field is empty returns at the guard: the
    items list (length and contents), the whole state and the view are what
    they were, and the listener returns normally. *)
Theorem C3_empty_submit_keeps_items (w : World) :
  textEl_value (dom w) = "" ->
  items (handleSubmit w) = items w
  /\ length (items (handleSubmit w)) = length (items w)
  /\ heap (handleSubmit w) = heap w
  /\ state (handleSubmit w) = state w
  /\ view_of (dom (handleSubmit w)) = view_of (dom w).
Proof.
  intros Hv. by rewrite handleSubmit_empty.
Qed.

Lemma C3_empty_submit_witness :
  textEl_value (dom w_seed) = ""
  /\ items (handleSubmit w_seed) = items w_seed.
Proof.
  split; [reflexivity|].
  apply (C3_empty_submit_keeps_items w_seed). reflexivity.
Defined.

(** C10: on the empty path nothing is rendered and the field is neither
    written nor focused: store, state and document are untouched, and the
    only host calls made are the two on the event itself. *)
Theorem C10_empty_submit_atomic (w : World) :
  textEl_value (dom w) = "" ->
  heap (handleSubmit w) = heap w
  /\ state (handleSubmit w) = state w
  /\ dom (handleSubmit w) = dom w
  /\ trace (handleSubmit w)
     = (trace w ++ [PreventDefault; StopPropagation])%list.
Proof.
  intros Hv. by rewrite handleSubmit_empty.
Qed.

Lemma C10_empty_submit_witness :
  textEl_value (dom w_hidden) = ""
  /\ dom (handleSubmit w_hidden) = dom w_hidden
  /\ trace (handleSubmit w_hidden)
     = (trace w_hidden ++ [PreventDefault; StopPropagation])%list.
Proof.
  split; [reflexivity|].
  pose proof (C10_empty_submit_atomic w_hidden eq_refl) as (_ & _ & Hd & Ht).
  exact (conj Hd Ht).
Defined.

(** C9: the guard compares the raw value with the empty string and does
    not trim: any non-empty value, blanks included, is stored verbatim in a
    new, not completed item at the end of the list. *)
Theorem C9_guard_is_raw_emptiness (w : World) :
  heap_ok w ->
  textEl_value (dom w) <> "" ->
  items (handleSubmit w)
  = (items w ++ [{| text := textEl_value (dom w); completed := false |}])
      %list.
Proof. apply handleSubmit_nonempty_items. Qed.

Lemma C9_blank_witness :
  items (handleSubmit w_blank)
  = (items w_blank ++ [{| text := "   "; completed := false |}])%list.
Proof.
  apply (C9_guard_is_raw_emptiness w_blank).
  - apply (heap_ok_step (Typed "   ")), heap_ok_boot.
  - discriminate.
Defined.

Lemma handleSubmit_nonempty_eq (w : World) :
  textEl_value (dom w) <> "" ->
  let w1 :=
    todos_push {| text := textEl_value (dom w); completed := false |} w in
  handleSubmit w
  = {| heap := heap w1; state := state w1;
       dom := {| ul := spec_row (heap w1) <$> getVisibleTodos w1;
                 pre_innerHTML := innerHTML_of (getHelperMessage w1);
                 form_className := getFormClassName w;
                 textEl_value := "";
                 checkbox_checked := checkbox_checked (dom w) |};
       trace := (trace w ++ [PreventDefault; StopPropagation] ++
                 render_effects w1 ++ [SetValue ""; Focus])%list |}.
Proof.
  intros Hv w1. rewrite handleSubmit_nonempty by done. rewrite render_eq.
  unfold set_textEl_value, emit, set_dom. cbn [heap state dom trace ul
    pre_innerHTML form_className textEl_value checkbox_checked].
  f_equal. change (trace (todos_push ?it ?w0)) with (trace w0).
  cbn [trace]. rewrite <- !app_assoc. reflexivity.
Qed.

(** C4: submitting a non-empty value [v] appends [{text: v, completed:
    false}] as the last item; [render] then runs on the extended list (the
    new row is the last row of the document), and only after these host
    calls is the field set to the empty string and focused.  [heap_ok]
    holds in every reachable world. *)
Theorem C4_submit_appends_then_clears (w : World) (v : string) :
  heap_ok w ->
  textEl_value (dom w) = v ->
  v <> "" ->
  let it := {| text := v; completed := false |} in
  let w' := handleSubmit w in
  items w' = (items w ++ [it])%list
  /\ last (items w') = Some it
  /\ last (ul (dom w'))
     = Some {| li_text := v; li_className := "";
               li_item := length (heap w) |}
  /\ in_sync w'
  /\ textEl_value (dom w') = ""
  /\ trace w'
     = (trace w ++ [PreventDefault; StopPropagation] ++
        (Remove <$> ul (dom w)) ++ (AppendChild <$> ul (dom w')) ++
        [SetFormClassName (form_className (dom w'));
         SetPreInnerHTML None] ++
        [SetValue ""; Focus])%list.
Proof.
  intros Hok <- Hv it w'.
  assert (items w' = (items w ++ [it])%list) as Hit
    by by apply handleSubmit_nonempty_items.
  split_and!.
  - done.
  - rewrite Hit. apply last_snoc.
  - subst w'. rewrite handleSubmit_nonempty_eq by done.
    cbn [dom ul]. rewrite getVisibleTodos_todos_push by done.
    rewrite fmap_app, last_app. cbn. unfold spec_row.
    change (heap (todos_push it w)) with (heap w ++ [it])%list.
    by rewrite list_lookup_total_middle.
  - by apply handleSubmit_nonempty_in_sync.
  - subst w'. by rewrite handleSubmit_nonempty_eq.
  - subst w'. rewrite handleSubmit_nonempty_eq by done.
    cbn [dom ul trace form_className]. unfold render_effects.
    unfold getHelperMessage. rewrite getVisibleTodos_todos_push by done.
    rewrite length_app, Nat.add_1_r. cbn [truthy_number].
    rewrite <- !app_assoc. reflexivity.
Qed.

Lemma C4_buy_eggs_witness :
  items (handleSubmit w_eggs)
  = (items w_eggs ++ [{| text := "buy eggs"; completed := false |}])%list
  /\ textEl_value (dom (handleSubmit w_eggs)) = "".
Proof.
  assert (heap_ok w_eggs) as Hok
    by apply (heap_ok_step Keyup), (heap_ok_step (Typed "buy eggs")),
         heap_ok_boot.
  assert ("buy eggs" <> "") as Hne by discriminate.
  pose proof (C4_submit_appends_then_clears w_eggs "buy eggs" Hok eq_refl Hne)
    as (Hi & _ & _ & _ & Hv & _).
  exact (conj Hi Hv).
Defined.

(** ** Properties of the row listener *)

Section RowClick.

(** Replacing the function at one element of a duplicate-free list changes
    one position of the mapped list. *)
Lemma fmap_insert_one {B : Type} (f g : ref -> B) (l : list ref)
    (k : nat) (r : ref) :
  NoDup l ->
  l !! k = Some r ->
  (forall x, x <> r -> g x = f x) ->
  g <$> l = <[k := g r]> (f <$> l).
Proof.
  intros Hnd Hk Hagree. apply list_eq. intros j.
  destruct (decide (k = j)) as [<-|Hne].
  - rewrite list_lookup_insert_eq
      by (rewrite length_fmap; by eapply lookup_lt_Some).
    by rewrite list_lookup_fmap, Hk.
  - rewrite list_lookup_insert_ne by done. rewrite !list_lookup_fmap.
    destruct (l !! j) as [x|] eqn:Hj; [cbn|done].
    f_equal. apply Hagree. intros ->.
    apply Hne. by eapply NoDup_lookup.
Qed.

Lemma in_sync_rows (w : World) :
  in_sync w -> ul (dom w) = spec_row (heap w) <$> getVisibleTodos w.
Proof.
  unfold in_sync, spec_view, view_of, spec_render.
  rewrite <- getVisibleTodos_spec. by intros [= -> _ _].
Qed.

Lemma getVisibleTodos_all (w : World) :
  hideCompleted (state w) = false -> getVisibleTodos w = todos (state w).
Proof.
  intros Hh. unfold getVisibleTodos. rewrite Hh.
  induction (todos (state w)) as [|x l IH]; [done|].
  cbn. by rewrite IH.
Qed.

(** What a row of a synchronised document is bound to. *)
Lemma row_lookup (w : World) (k : nat) (li : Li) :
  heap_ok w -> in_sync w -> ul (dom w) !! k = Some li ->
  li = spec_row (heap w) (li_item li)
  /\ getVisibleTodos w !! k = Some (li_item li)
  /\ li_item li ∈ todos (state w)
  /\ (li_item li < length (heap w))%nat
  /\ spec_visible (heap w) (hideCompleted (state w)) (li_item li).
Proof.
  intros [Hnd Hlt] Hs Hk. rewrite (in_sync_rows w Hs) in Hk.
  apply list_lookup_fmap_Some in Hk as (r & -> & Hr). cbn.
  assert (r ∈ getVisibleTodos w) as Hin
    by by eapply list_elem_of_lookup_2.
  rewrite getVisibleTodos_spec in Hin.
  apply list_elem_of_filter in Hin as [Hv Hin].
  split_and!; try done.
  rewrite Forall_forall in Hlt. by apply Hlt.
Qed.

End RowClick.

Lemma click_li_at (w : World) (k : nat) (li : Li) :
  ul (dom w) !! k = Some li ->
  click_li k w
  = render
      (set_heap
         (<[li_item li := toggled (deref w (li_item li))]> (heap w)) w).
Proof. intros Hk. unfold click_li. by rewrite Hk. Qed.

(** With the filter off, the clicked row stays where it is and only its
    marker changes. *)
Lemma rows_after_click_shown (w : World) (k : nat) (li : Li) :
  heap_ok w -> in_sync w -> ul (dom w) !! k = Some li ->
  hideCompleted (state w) = false ->
  ul (dom (click_li k w)) = <[k := toggle_marker li]> (ul (dom w)).
Proof.
  intros Hok Hs Hk Hh.
  destruct (row_lookup w k li Hok Hs Hk) as (Hli & Hvis & _ & Hlt & _).
  rewrite (click_li_at w k li Hk), render_eq. cbn [dom ul].
  rewrite (in_sync_rows w Hs).
  rewrite getVisibleTodos_all in Hvis by done.
  rewrite !getVisibleTodos_all by done.
  cbn [set_heap heap state]. unfold deref.
  rewrite Hli at 3. rewrite <- spec_row_insert_eq by done.
  apply fmap_insert_one with (r := li_item li); [apply Hok|done|].
  intros x Hx. by apply spec_row_insert_ne.
Qed.

(** With the filter on, the clicked row shows a not completed object; the
    click completes it, so the row is not rendered again. *)
Lemma rows_after_click_hidden (w : World) (k : nat) (li : Li) :
  heap_ok w -> in_sync w -> ul (dom w) !! k = Some li ->
  hideCompleted (state w) = true ->
  ul (dom (click_li k w)) = delete k (ul (dom w)).
Proof.
  intros Hok Hs Hk Hh.
  destruct (row_lookup w k li Hok Hs Hk) as (Hli & Hvis & _ & Hlt & Hsv).
  rewrite (click_li_at w k li Hk), render_eq. cbn [dom ul].
  rewrite (in_sync_rows w Hs). rewrite getVisibleTodos_spec in Hvis.
  rewrite !getVisibleTodos_spec. cbn [set_heap heap state]. unfold deref.
  set (r := li_item li) in *. set (h := heap w) in *.
  set (h' := <[r := toggled (h !!! r)]> h).
  rewrite Hh in *. unfold spec_filter in *.
  assert (completed (h !!! r) = false) as Hc
    by (destruct Hsv as [?|?]; [done|done]).
  assert (~ spec_visible h' true r) as Hnot.
  { unfold spec_visible, h'. rewrite list_lookup_total_insert_eq by done.
    cbn. rewrite Hc. cbn. intros [?|?]; done. }
  assert (forall x, x <> r -> spec_visible h' true x <-> spec_visible h true x)
    as Hagree.
  { intros x Hx. unfold spec_visible, h'.
    by rewrite list_lookup_total_insert_ne. }
  rewrite (filter_drop_one (spec_visible h true) (spec_visible h' true)
             (todos (state w)) k r (proj1 Hok) Hvis Hagree Hnot).
  rewrite <- list_fmap_delete. apply Forall_fmap_ext_1, Forall_forall.
  intros x Hx. apply spec_row_insert_ne. intros <-.
  rewrite <- (filter_drop_one (spec_visible h true) (spec_visible h' true)
                (todos (state w)) k r (proj1 Hok) Hvis Hagree Hnot) in Hx.
  apply list_elem_of_filter in Hx as [Hx _]. done.
Qed.

(** C5, as amended: a click on a visible row negates [completed] of the
    object the row displays and of nothing else (texts, the other objects
    and the rest of the state are untouched); the re-render follows the
    flip: with the filter off the row keeps its place and its done marker
    is switched, with the filter on the row is no longer rendered.  The two
    hypotheses on [w] hold in every reachable world. *)
Theorem C5_click_toggles_one_item (w : World) (k : nat) (li : Li) :
  heap_ok w ->
  in_sync w ->
  ul (dom w) !! k = Some li ->
  let r := li_item li in
  let w' := click_li k w in
  (r ∈ todos (state w) /\ li = spec_row (heap w) r)
  /\ deref w' r = toggled (deref w r)
  /\ text (deref w' r) = text (deref w r)
  /\ (forall r' : ref, r' <> r -> deref w' r' = deref w r')
  /\ state w' = state w
  /\ (exists i : nat,
        todos (state w) !! i = Some r /\
        items w' = <[i := toggled (deref w r)]> (items w))
  /\ in_sync w'
  /\ (hideCompleted (state w) = false ->
      ul (dom w') = <[k := toggle_marker li]> (ul (dom w)))
  /\ (hideCompleted (state w) = true ->
      ul (dom w') = delete k (ul (dom w))).
Proof.
  intros Hok Hs Hk r w'.
  destruct (row_lookup w k li Hok Hs Hk) as (Hli & Hvis & Hin & Hlt & Hsv).
  assert (heap w' = <[r := toggled (deref w r)]> (heap w)) as Hheap
    by (subst w'; by rewrite (click_li_at w k li Hk), render_heap).
  assert (state w' = state w) as Hstate
    by (subst w'; by rewrite (click_li_at w k li Hk), render_state).
  assert (deref w' r = toggled (deref w r)) as Hr.
  { unfold deref at 1. rewrite Hheap.
    by rewrite list_lookup_total_insert_eq. }
  assert (forall r' : ref, r' <> r -> deref w' r' = deref w r') as Hframe.
  { intros r' Hne. unfold deref. rewrite Hheap.
    by rewrite list_lookup_total_insert_ne. }
  split_and!; try done.
  - by rewrite Hr.
  - apply list_elem_of_lookup_1 in Hin as [i Hi]. exists i. split; [done|].
    unfold items. rewrite Hstate, <- Hr.
    by apply fmap_insert_one with (r := r); [apply Hok|done|].
  - subst w'. rewrite (click_li_at w k li Hk). apply render_in_sync.
  - intros Hh. subst w'. by apply rows_after_click_shown.
  - intros Hh. subst w'. by apply (rows_after_click_hidden w k li).
Qed.

Lemma C5_click_witness :
  ul (dom (click_li 0 w_seed))
  = <[0%nat := {| li_text := "buy milk"; li_className := ""; li_item := 0 |}]>
      (ul (dom w_seed))
  /\ ul (dom (click_li 0 w_hidden)) = delete 0%nat (ul (dom w_hidden)).
Proof.
  split.
  - pose proof
      (C5_click_toggles_one_item w_seed 0
         {| li_text := "buy milk"; li_className := "is-done"; li_item := 0 |}
         (heap_ok_boot empty_page) (render_in_sync _) eq_refl)
      as (_ & _ & _ & _ & _ & _ & _ & Hshown & _).
    exact (Hshown eq_refl).
  - pose proof
      (C5_click_toggles_one_item w_hidden 0
         {| li_text := "clean kitchen"; li_className := ""; li_item := 1 |}
         (heap_ok_step ClickCheckbox _ (heap_ok_boot empty_page))
         (render_in_sync _) eq_refl)
      as (_ & _ & _ & _ & _ & _ & _ & _ & Hhidden).
    exact (Hhidden eq_refl).
Defined.

(** C5, as stated, fails with the filter on: on the seed list with
    [hideCompleted] set, the first row shows "clean kitchen"; after a click
    on it no row of the document belongs to that object, so no done marker
    has appeared on it. *)
Lemma C5_row_vanishes_counterexample :
  reachable w_hidden
  /\ ul (dom w_hidden) !! 0%nat
     = Some {| li_text := "clean kitchen"; li_className := "";
               li_item := 1 |}
  /\ ul (dom (click_li 0 w_hidden))
     = [ {| li_text := "learn js"; li_className := ""; li_item := 2 |} ]
  /\ ~ marker_flips_on_row w_hidden 0.
Proof.
  split_and!.
  - apply reachable_step, reachable_boot.
  - reflexivity.
  - by vm_compute.
  - intros Hflip.
    destruct (Hflip _ eq_refl) as (li' & Hin & Hitem & _).
    assert (ul (dom (click_li 0 w_hidden))
            = [ {| li_text := "learn js"; li_className := "";
                   li_item := 2 |} ]) as Hul by by vm_compute.
    rewrite Hul in Hin. apply list_elem_of_singleton in Hin. subst li'.
    discriminate Hitem.
Qed.

(** ** The view after a mutation *)

(** Every change of the store or of the state comes from a listener that
    [mutates] accounts for. *)
Lemma mutation_is_detected (ev : Event) (w : World) :
  heap (step ev w) <> heap w \/ state (step ev w) <> state w ->
  mutates ev w = true.
Proof.
  destruct ev; cbn [mutates]; try done.
  - intros [H|H]; by destruct H.
  - destruct (truthy_string (textEl_value (dom w))) eqn:E; [done|].
    apply truthy_string_empty in E. cbn [step].
    rewrite handleSubmit_empty by done. intros [H|H]; by destruct H.
  - cbn [step]. unfold click_li. destruct (ul (dom w) !! k); [done|].
    intros [H|H]; by destruct H.
Qed.

(** C1: whenever a listener has assigned to the state, the document it
    leaves behind is the projection of the state it leaves behind: rows,
    helper message and form marker are those computed from that state. *)
Theorem C1_view_follows_state (ev : Event) (w : World) :
  mutates ev w = true ->
  let w' := step ev w in
  let visible :=
    spec_filter (heap w') (hideCompleted (state w')) (todos (state w')) in
  view_of (dom w') = spec_render (heap w') visible (formIsValid (state w'))
  /\ ul (dom w') = spec_row (heap w') <$> visible
  /\ pre_innerHTML (dom w')
     = (if decide (length visible = 0%nat) then helper_text else "")
  /\ form_className (dom w')
     = (if formIsValid (state w') then "is-valid" else "").
Proof.
  intros Hm w' visible.
  assert (in_sync w') as Hs.
  { subst w'. destruct ev; cbn [mutates step] in *.
    - done.
    - apply render_in_sync.
    - apply handleSubmit_nonempty_in_sync. intros Hv. by rewrite Hv in Hm.
    - apply render_in_sync.
    - unfold click_li. destruct (ul (dom w) !! k); [|done].
      apply render_in_sync. }
  unfold in_sync, spec_view in Hs. fold visible in Hs.
  split; [done|]. unfold view_of, spec_render in Hs.
  injection Hs as -> -> ->. split_and!; [done| |done].
  by destruct visible.
Qed.

Lemma C1_view_follows_state_witness :
  ul (dom (step Submit w_eggs))
  = spec_row (heap (step Submit w_eggs)) <$> [0; 1; 2; 3]
  /\ form_className (dom (step ClickCheckbox w_eggs)) = "is-valid".
Proof.
  split.
  - pose proof (C1_view_follows_state Submit w_eggs eq_refl)
      as (_ & Hrows & _).
    exact Hrows.
  - pose proof (C1_view_follows_state ClickCheckbox w_eggs eq_refl)
      as (_ & _ & _ & Hform).
    exact Hform.
Defined.

(** ** Further properties of rendering *)

Lemma render_dom (w : World) :
  dom (render w)
  = {| ul := spec_row (heap w) <$> getVisibleTodos w;
       pre_innerHTML := innerHTML_of (getHelperMessage w);
       form_className := getFormClassName w;
       textEl_value := textEl_value (dom w);
       checkbox_checked := checkbox_checked (dom w) |}.
Proof. by rewrite render_eq. Qed.

Lemma getVisibleTodos_ext (w1 w2 : World) :
  heap w1 = heap w2 -> state w1 = state w2 ->
  getVisibleTodos w1 = getVisibleTodos w2.
Proof. unfold getVisibleTodos, deref. by intros -> ->. Qed.

Lemma render_dom_ext (w1 w2 : World) :
  heap w1 = heap w2 -> state w1 = state w2 ->
  textEl_value (dom w1) = textEl_value (dom w2) ->
  checkbox_checked (dom w1) = checkbox_checked (dom w2) ->
  dom (render w1) = dom (render w2).
Proof.
  intros Hh Hs Hv Hc. rewrite !render_dom.
  unfold getHelperMessage, getFormClassName.
  by rewrite (getVisibleTodos_ext w1 w2), Hh, Hs, Hv, Hc.
Qed.

Lemma same_page_render (w1 w2 : World) :
  same_page w1 w2 -> same_page (render w1) (render w2).
Proof.
  intros (Hh & Hs & Hd). unfold same_page.
  rewrite !render_heap, !render_state. split_and!; [done|done|].
  apply render_dom_ext; by rewrite ?Hd.
Qed.

(** In a synchronised world [render] rewrites the document to itself. *)
Lemma render_fixes_in_sync (w : World) :
  in_sync w -> same_page (render w) w.
Proof.
  intros Hs. unfold same_page. rewrite render_heap, render_state.
  split_and!; [done|done|]. rewrite render_dom.
  unfold in_sync, spec_view, view_of, spec_render in Hs.
  rewrite <- getVisibleTodos_spec in Hs.
  destruct (dom w) as [u p f v c]. cbn in *. injection Hs as -> -> ->.
  f_equal. unfold getHelperMessage. by destruct (getVisibleTodos w).
Qed.

(** X1: [render] writes only the rows, the helper message and the form
    class: store, state, field value and checkbox are left alone, and a
    second [render] in a row changes nothing but the log of host calls. *)
Theorem X1_render_frame_idempotent (w : World) :
  heap (render w) = heap w
  /\ state (render w) = state w
  /\ textEl_value (dom (render w)) = textEl_value (dom w)
  /\ checkbox_checked (dom (render w)) = checkbox_checked (dom w)
  /\ same_page (render (render w)) (render w).
Proof.
  split_and!; try by rewrite render_eq.
  apply render_fixes_in_sync, render_in_sync.
Qed.

(** X2: the view [render] produces does not depend on what the document
    showed before: rows, helper text and form class found there are all
    replaced. *)
Theorem X2_render_forgets_old_view (w : World) (u : list Li) (p f : string) :
  dom (render
         (set_dom {| ul := u; pre_innerHTML := p; form_className := f;
                     textEl_value := textEl_value (dom w);
                     checkbox_checked := checkbox_checked (dom w) |} w))
  = dom (render w).
Proof. by apply render_dom_ext. Qed.

(** X3: [resetDOMList] empties the list whatever it held, with one
    [remove] per former row in document order, and touches nothing else;
    on an empty list it does nothing at all. *)
Theorem X3_resetDOMList_clears (w : World) :
  ul (dom (resetDOMList w)) = []
  /\ trace (resetDOMList w) = (trace w ++ (Remove <$> ul (dom w)))%list
  /\ heap (resetDOMList w) = heap w
  /\ state (resetDOMList w) = state w
  /\ pre_innerHTML (dom (resetDOMList w)) = pre_innerHTML (dom w)
  /\ form_className (dom (resetDOMList w)) = form_className (dom w)
  /\ textEl_value (dom (resetDOMList w)) = textEl_value (dom w)
  /\ (ul (dom w) = [] -> resetDOMList w = w).
Proof.
  rewrite resetDOMList_eq. split_and!; try done.
  intros Hu. destruct w as [h s [u p f v c] t]. cbn in *. subst u.
  cbn. by rewrite app_nil_r.
Qed.

(** X4: [renderDOMList] only appends: the rows of the visible todos are
    added after whatever the list holds, so that without [resetDOMList] a
    second run shows every row twice. *)
Theorem X4_renderDOMList_appends (w : World) :
  let rows := spec_row (heap w) <$> getVisibleTodos w in
  ul (dom (renderDOMList w)) = (ul (dom w) ++ rows)%list
  /\ ul (dom (renderDOMList (renderDOMList w)))
     = (ul (dom w) ++ rows ++ rows)%list
  /\ trace (renderDOMList w) = (trace w ++ (AppendChild <$> rows))%list.
Proof.
  cbn zeta. unfold renderDOMList. rewrite !renderDOMList_fold.
  cbn [dom ul heap trace]. split_and!; [done| |done].
  rewrite <- app_assoc. do 3 f_equal.
Qed.

Lemma filter_split_length (f : ref -> bool) (l : list ref) :
  (length (List.filter (fun x => negb (f x)) l) + length (List.filter f l))%nat
  = length l.
Proof.
  induction l as [|x l IH]; [done|].
  cbn. destruct (f x); cbn; lia.
Qed.

(** X5: [render] shows one row per todo when the filter is off; when it is
    on, the rows and the completed todos together account for every todo.
    There are never more rows than todos. *)
Theorem X5_row_count (w : World) :
  let n := length (ul (dom (render w))) in
  let done :=
    List.filter (fun item => completed (deref w item)) (todos (state w)) in
  (n <= length (todos (state w)))%nat
  /\ (hideCompleted (state w) = false -> n = length (todos (state w)))
  /\ (hideCompleted (state w) = true ->
      (n + length done)%nat = length (todos (state w))).
Proof.
  cbn zeta. rewrite render_dom. cbn [ul]. rewrite length_fmap.
  assert (hideCompleted (state w) = true ->
          (length (getVisibleTodos w) +
           length (List.filter (fun item => completed (deref w item))
                     (todos (state w))))%nat
          = length (todos (state w))) as Hon.
  { intros Hh. unfold getVisibleTodos. rewrite Hh.
    apply filter_split_length. }
  split_and!; [|by intros ->%getVisibleTodos_all|done].
  destruct (hideCompleted (state w)) eqn:Hh.
  - specialize (Hon eq_refl). lia.
  - by rewrite getVisibleTodos_all.
Qed.

(** X6: every row [render] makes shows the text of the object it is bound
    to and carries the class [is-done] exactly when that object is
    completed; with the filter on, no rendered row carries the class. *)
Theorem X6_row_markers (w : World) :
  Forall
    (fun li =>
       li_text li = text (deref w (li_item li)) /\
       (li_className li = "is-done" <->
        completed (deref w (li_item li)) = true) /\
       (li_className li = "" <->
        completed (deref w (li_item li)) = false))
    (ul (dom (render w)))
  /\ (hideCompleted (state w) = true ->
      Forall (fun li => li_className li = "") (ul (dom (render w)))).
Proof.
  rewrite render_dom. cbn [ul]. split.
  - apply Forall_fmap, Forall_forall. intros item _. cbn.
    unfold deref. destruct (completed (heap w !!! item)); by split_and!.
  - intros Hh. apply Forall_fmap, Forall_forall. intros item Hin. cbn.
    rewrite getVisibleTodos_spec in Hin.
    apply list_elem_of_filter in Hin as [[Hv|Hv] _]; [congruence|].
    by rewrite Hv.
Qed.

(** ** What one event does to the store *)

(** An event leaves the store and the todo array alone, or appends one
    fresh, not completed object with a non-empty text, or negates the
    [completed] flag of one object. *)
Lemma step_store (ev : Event) (w : World) :
  (heap (step ev w) = heap w /\ todos (state (step ev w)) = todos (state w))
  \/ (exists v : string,
        v <> "" /\
        heap (step ev w)
        = (heap w ++ [{| text := v; completed := false |}])%list /\
        todos (state (step ev w))
        = (todos (state w) ++ [length (heap w)])%list)
  \/ (exists r : ref,
        heap (step ev w) = <[r := toggled (heap w !!! r)]> (heap w) /\
        todos (state (step ev w)) = todos (state w)).
Proof.
  destruct ev; cbn [step].
  - by left.
  - left. unfold handleForm. by rewrite render_heap, render_state.
  - destruct (decide (textEl_value (dom w) = "")) as [Hv|Hv].
    + left. by rewrite handleSubmit_empty.
    + right; left. exists (textEl_value (dom w)).
      by rewrite handleSubmit_nonempty_eq.
  - left. unfold handleHide. by rewrite render_heap, render_state.
  - unfold click_li. destruct (ul (dom w) !! k) as [li|]; [|by left].
    right; right. exists (li_item li).
    by rewrite li_click_eq, render_heap, render_state.
Qed.

Lemma step_text_kept (ev : Event) (w : World) (r : ref) :
  (r < length (heap w))%nat ->
  text (deref (step ev w) r) = text (deref w r).
Proof.
  intros Hlt. unfold deref.
  destruct (step_store ev w) as [[-> _]|[(v & _ & -> & _)|(r' & -> & _)]].
  - done.
  - by rewrite lookup_total_app_l.
  - rewrite list_lookup_total_insert. case_decide as Hd; [|done].
    by destruct Hd as [-> _].
Qed.

Lemma step_heap_length (ev : Event) (w : World) :
  (length (heap w) <= length (heap (step ev w)))%nat.
Proof.
  destruct (step_store ev w) as [[-> _]|[(v & _ & -> & _)|(r' & -> & _)]].
  - done.
  - rewrite length_app. lia.
  - by rewrite length_insert.
Qed.

Lemma step_todos_prefix (ev : Event) (w : World) :
  todos (state w) `prefix_of` todos (state (step ev w)).
Proof.
  destruct (step_store ev w) as [[_ ->]|[(v & _ & _ & ->)|(r' & _ & ->)]];
    [done| |done].
  by apply prefix_app_r.
Qed.

(** X7: the list only grows.  Over any sequence of events the todo array is
    extended at its end, no object leaves the store, and the text of an
    object never changes once it exists. *)
Theorem X7_append_only (evs : list Event) (w : World) :
  todos (state w) `prefix_of` todos (state (run evs w))
  /\ (length (heap w) <= length (heap (run evs w)))%nat
  /\ (forall r : ref,
        (r < length (heap w))%nat ->
        text (deref (run evs w) r) = text (deref w r)).
Proof.
  revert w. induction evs as [|ev evs IH]; intros w; [done|].
  change (run (ev :: evs) w) with (run evs (step ev w)).
  destruct (IH (step ev w)) as (Hp & Hl & Ht).
  pose proof (step_heap_length ev w) as Hl1. split_and!.
  - etrans; [apply step_todos_prefix|done].
  - lia.
  - intros r Hr. rewrite Ht by lia. by apply step_text_kept.
Qed.

(** ** Invariants of the reachable worlds *)

Lemma step_todos_seq (ev : Event) (w : World) :
  todos (state w) = seq 0 (length (heap w)) ->
  todos (state (step ev w)) = seq 0 (length (heap (step ev w))).
Proof.
  intros Hseq.
  destruct (step_store ev w)
    as [[-> ->]|[(v & _ & -> & ->)|(r' & -> & ->)]].
  - done.
  - rewrite length_app, Nat.add_1_r, seq_S. by rewrite Hseq.
  - by rewrite length_insert.
Qed.

Lemma reachable_todos_seq (w : World) :
  reachable w ->
  todos (state w) = seq 0 (length (heap w)) /\ (3 <= length (heap w))%nat.
Proof.
  induction 1 as [d|ev w _ [IH1 IH2]].
  - unfold boot. by rewrite render_state, render_heap.
  - split; [by apply step_todos_seq|].
    pose proof (step_heap_length ev w). lia.
Qed.



Lemma rows_bound_of_sync (w : World) :
  heap_ok w -> in_sync w -> rows_bound w.
Proof.
  intros [Hnd _] Hs. unfold rows_bound. rewrite (in_sync_rows w Hs).
  rewrite getVisibleTodos_spec. unfold spec_filter. split.
  - rewrite <- list_fmap_compose.
    rewrite (list_fmap_ext (li_item ∘ spec_row (heap w)) id)
      by (intros; done).
    rewrite list_fmap_id. by apply NoDup_filter.
  - apply Forall_fmap, Forall_forall. intros item Hin. cbn.
    apply list_elem_of_filter in Hin as [_ Hin]. done.
Qed.

(** X8: in every world the page can reach, the document is the projection
    of the state (not only right after a mutation), and [state.todos]
    lists every object of the store exactly once, in order of creation;
    the three seed objects are never lost. *)
Theorem X8_reachable_invariant (w : World) :
  reachable w ->
  in_sync w
  /\ heap_ok w
  /\ todos (state w) = seq 0 (length (heap w))
  /\ (3 <= length (items w))%nat.
Proof.
  intros Hr. destruct (reachable_todos_seq w Hr) as [Hseq Hlen].
  split_and!; [by apply reachable_in_sync|by apply reachable_heap_ok|done|].
  unfold items. by rewrite length_fmap, Hseq, length_seq.
Qed.

Lemma X8_reachable_witness :
  in_sync (step Submit w_eggs)
  /\ todos (state (step Submit w_eggs)) = [0; 1; 2; 3].
Proof.
  assert (reachable (step Submit w_eggs)) as Hr
    by (unfold w_eggs, w_seed; cbn [run fold_left];
        do 3 apply reachable_step; apply reachable_boot).
  pose proof (X8_reachable_invariant _ Hr) as (Hs & _ & Hseq & _).
  exact (conj Hs Hseq).
Defined.



(** X10: in every reachable world each row shows the object its click
    listener is bound to, that object is one of [state.todos], and no two
    rows are bound to the same object. *)
Theorem X10_rows_bound (w : World) :
  reachable w ->
  NoDup (li_item <$> ul (dom w))
  /\ Forall
       (fun li => li = spec_row (heap w) (li_item li) /\
                  li_item li ∈ todos (state w))
       (ul (dom w)).
Proof.
  intros Hr.
  apply rows_bound_of_sync;
    [by apply reachable_heap_ok|by apply reachable_in_sync].
Qed.

Lemma X10_rows_bound_witness :
  NoDup (li_item <$> ul (dom w_hidden)).
Proof.
  apply (X10_rows_bound w_hidden).
  unfold w_hidden, w_seed. apply reachable_step, reachable_boot.
Defined.

(** ** When the helper message shows *)

Lemma filter_nil_iff (f : ref -> bool) (l : list ref) :
  List.filter f l = [] <-> Forall (fun x => f x = false) l.
Proof.
  induction l as [|x l IH]; cbn.
  - split; [constructor|done].
  - destruct (f x) eqn:E.
    + split; [done|]. intros H. apply Forall_cons in H as [H _].
      congruence.
    + rewrite IH. split; [by constructor|].
      by intros H; apply Forall_cons in H as [_ H].
Qed.

Lemma getVisibleTodos_nil_iff (w : World) :
  getVisibleTodos w = [] <->
  Forall
    (fun item =>
       hideCompleted (state w) = true /\ completed (deref w item) = true)
    (todos (state w)).
Proof.
  unfold getVisibleTodos. rewrite filter_nil_iff.
  apply Forall_iff. intros item.
  destruct (hideCompleted (state w)), (completed (deref w item));
    cbn; intuition congruence.
Qed.

(** X11: the helper message is shown exactly when every todo is hidden by
    the filter: the filter is on and each todo is completed (which
    includes the empty list). *)
Theorem X11_helper_iff_all_hidden (w : World) :
  getHelperMessage w = Some helper_text <->
  Forall
    (fun item =>
       hideCompleted (state w) = true /\ completed (deref w item) = true)
    (todos (state w)).
Proof.
  rewrite <- getVisibleTodos_nil_iff. unfold getHelperMessage.
  destruct (getVisibleTodos w); cbn; split; done.
Qed.

(** X12: the seed items are never removed, so with the filter off a
    reachable page never shows the helper message, and it shows one row
    for every todo, in the order of [state.todos]. *)
Theorem X12_filter_off_shows_all (w : World) :
  reachable w ->
  hideCompleted (state w) = false ->
  pre_innerHTML (dom w) = ""
  /\ li_item <$> ul (dom w) = todos (state w)
  /\ li_text <$> ul (dom w) = text <$> items w.
Proof.
  intros Hr Hh. pose proof (reachable_in_sync w Hr) as Hs.
  destruct (reachable_todos_seq w Hr) as [Hseq Hlen].
  pose proof (in_sync_rows w Hs) as Hrows.
  rewrite getVisibleTodos_all in Hrows by done.
  split_and!.
  - destruct (render_fixes_in_sync w Hs) as (_ & _ & Hd).
    rewrite <- Hd, render_dom. cbn [pre_innerHTML].
    unfold getHelperMessage. rewrite getVisibleTodos_all by done.
    rewrite Hseq, length_seq.
    destruct (length (heap w)) as [|n]; [lia|done].
  - rewrite Hrows, <- list_fmap_compose.
    rewrite (list_fmap_ext (li_item ∘ spec_row (heap w)) id)
      by (intros; done).
    apply list_fmap_id.
  - rewrite Hrows. unfold items. by rewrite <- !list_fmap_compose.
Qed.

Lemma X12_filter_off_witness :
  pre_innerHTML (dom w_eggs) = ""
  /\ li_item <$> ul (dom w_eggs) = [0; 1; 2].
Proof.
  assert (reachable w_eggs) as Hr
    by (unfold w_eggs, w_seed; cbn [run fold_left];
        do 2 apply reachable_step; apply reachable_boot).
  pose proof (X12_filter_off_shows_all w_eggs Hr eq_refl) as (Hp & Hi & _).
  exact (conj Hp Hi).
Defined.

(** ** The filter flag and the checkbox *)

Lemma run_app (evs1 evs2 : list Event) (w : World) :
  run (evs1 ++ evs2) w = run evs2 (run evs1 w).
Proof. apply fold_left_app. Qed.

Lemma handleSubmit_flags (w : World) :
  hideCompleted (state (handleSubmit w)) = hideCompleted (state w)
  /\ formIsValid (state (handleSubmit w)) = formIsValid (state w)
  /\ checkbox_checked (dom (handleSubmit w)) = checkbox_checked (dom w).
Proof.
  destruct (decide (textEl_value (dom w) = "")) as [Hv|Hv].
  - by rewrite handleSubmit_empty.
  - by rewrite handleSubmit_nonempty_eq.
Qed.

Lemma step_flag_follows (ev : Event) (w : World) :
  flag_follows_checkbox w -> flag_follows_checkbox (step ev w).
Proof.
  unfold flag_follows_checkbox. intros Hf. destruct ev; cbn [step].
  - done.
  - unfold handleForm. by rewrite render_state, render_dom.
  - by destruct (handleSubmit_flags w) as (-> & _ & ->).
  - unfold handleHide. by rewrite render_state, render_dom.
  - unfold click_li. destruct (ul (dom w) !! k); [|done].
    by rewrite li_click_eq, render_state, render_dom.
Qed.

Lemma run_flag_follows (evs : list Event) (w : World) :
  flag_follows_checkbox w -> flag_follows_checkbox (run evs w).
Proof.
  revert w. induction evs as [|ev evs IH]; intros w Hf; [done|].
  apply (IH (step ev w)). by apply step_flag_follows.
Qed.

(** X13: the script never reads the checkbox at start-up, so a page whose
    checkbox is already checked starts with the filter off; from the first
    click on the checkbox onwards, [hideCompleted] equals the checkbox's
    [checked] flag after every event. *)
Theorem X13_flag_follows_checkbox (evs1 evs2 : list Event) (d : Dom) :
  (flag_follows_checkbox (boot d) <-> checkbox_checked d = false)
  /\ flag_follows_checkbox (run (evs1 ++ ClickCheckbox :: evs2) (boot d)).
Proof.
  split.
  - unfold flag_follows_checkbox, boot. rewrite render_state, render_dom.
    cbn. split; done.
  - rewrite run_app. change (run (ClickCheckbox :: evs2) ?w0)
      with (run evs2 (step ClickCheckbox w0)).
    apply run_flag_follows. unfold flag_follows_checkbox. cbn [step].
    unfold handleHide. by rewrite render_state, render_dom.
Qed.

(** ** Events in a row *)

Lemma toggled_toggled (it : Item) : toggled (toggled it) = it.
Proof. destruct it as [t c]. unfold toggled. cbn. by rewrite negb_involutive. Qed.

Lemma same_page_refl (w : World) : same_page w w.
Proof. done. Qed.

(** Toggling the same object twice gives the store back. *)
Lemma heap_toggle_twice (h : list Item) (r : ref) :
  <[r := toggled (<[r := toggled (h !!! r)]> h !!! r)]>
    (<[r := toggled (h !!! r)]> h)
  = h.
Proof.
  destruct (decide (r < length h)%nat) as [Hlt|Hge].
  - rewrite list_lookup_total_insert_eq by done.
    rewrite toggled_toggled, list_insert_insert_eq.
    apply list_insert_id. by apply list_lookup_lookup_total_lt.
  - by rewrite !list_insert_ge by (rewrite ?length_insert; lia).
Qed.

(** X14: with the filter off, two clicks on the same row cancel out:
    store, state and document are back to what they were. *)
Theorem X14_double_click_restores (w : World) (k : nat) :
  heap_ok w ->
  in_sync w ->
  hideCompleted (state w) = false ->
  same_page (step (ClickLi k) (step (ClickLi k) w)) w.
Proof.
  intros Hok Hs Hh. cbn [step].
  destruct (ul (dom w) !! k) as [li|] eqn:Hk.
  - pose proof (rows_after_click_shown w k li Hok Hs Hk Hh) as Hrows.
    assert (ul (dom (click_li k w)) !! k = Some (toggle_marker li)) as Hk'.
    { rewrite Hrows. apply list_lookup_insert_eq.
      by eapply lookup_lt_Some. }
    rewrite (click_li_at _ k _ Hk'). cbn [toggle_marker li_item].
    rewrite (click_li_at w k li Hk). unfold deref.
    rewrite render_heap. cbn [set_heap heap].
    destruct (render_fixes_in_sync w Hs) as (_ & _ & Hd).
    unfold same_page. rewrite render_heap, render_state. cbn [set_heap heap
      state]. rewrite render_state. cbn [state].
    rewrite heap_toggle_twice. split_and!; [done|done|].
    etrans; [|exact Hd]. apply render_dom_ext; cbn [set_heap heap state dom];
      by rewrite ?render_state, ?render_dom.
  - unfold click_li. rewrite Hk. unfold click_li. by rewrite Hk.
Qed.

Lemma X14_double_click_witness :
  dom (step (ClickLi 1) (step (ClickLi 1) w_seed)) = dom w_seed.
Proof.
  pose proof
    (X14_double_click_restores w_seed 1 (heap_ok_boot empty_page)
       (render_in_sync _) eq_refl) as (_ & _ & Hd).
  exact Hd.
Defined.

(** What a click on the checkbox leaves behind. *)
Lemma step_checkbox_eq (w : World) :
  heap (step ClickCheckbox w) = heap w
  /\ state (step ClickCheckbox w)
     = {| hideCompleted := negb (checkbox_checked (dom w));
          formIsValid := formIsValid (state w);
          todos := todos (state w) |}
  /\ textEl_value (dom (step ClickCheckbox w)) = textEl_value (dom w)
  /\ checkbox_checked (dom (step ClickCheckbox w))
     = negb (checkbox_checked (dom w)).
Proof.
  cbn [step]. unfold handleHide.
  by rewrite render_heap, render_state, render_dom.
Qed.

(** X15: once the flag follows the checkbox, two clicks on the checkbox
    cancel out: store, state and document are back to what they were. *)
Theorem X15_double_filter_click_restores (w : World) :
  flag_follows_checkbox w ->
  in_sync w ->
  same_page (step ClickCheckbox (step ClickCheckbox w)) w.
Proof.
  unfold flag_follows_checkbox. intros Hf Hs.
  destruct (render_fixes_in_sync w Hs) as (_ & _ & Hd).
  destruct (step_checkbox_eq w) as (G1 & G2 & G3 & G4).
  destruct (step_checkbox_eq (step ClickCheckbox w)) as (H1 & H2 & _ & _).
  assert (state (step ClickCheckbox (step ClickCheckbox w)) = state w)
    as Hst.
  { rewrite H2, G4, G2. cbn [formIsValid todos].
    rewrite negb_involutive, <- Hf. by destruct (state w). }
  unfold same_page. split_and!; [by rewrite H1|done|].
  etrans; [|exact Hd].
  change (step ClickCheckbox (step ClickCheckbox w))
    with (handleHide
            (set_dom
               {| ul := ul (dom (step ClickCheckbox w));
                  pre_innerHTML := pre_innerHTML (dom (step ClickCheckbox w));
                  form_className :=
                    form_className (dom (step ClickCheckbox w));
                  textEl_value := textEl_value (dom (step ClickCheckbox w));
                  checkbox_checked :=
                    negb (checkbox_checked (dom (step ClickCheckbox w))) |}
               (step ClickCheckbox w))).
  unfold handleHide at 1.
  apply render_dom_ext;
    cbn [set_state set_dom heap state dom textEl_value checkbox_checked].
  - done.
  - rewrite G4, G2. cbn [formIsValid todos].
    rewrite negb_involutive, <- Hf. by destruct (state w).
  - done.
  - by rewrite G4, negb_involutive.
Qed.

Lemma X15_double_filter_click_witness :
  dom (step ClickCheckbox (step ClickCheckbox w_hidden)) = dom w_hidden.
Proof.
  assert (flag_follows_checkbox w_hidden) as Hf by reflexivity.
  pose proof
    (X15_double_filter_click_restores w_hidden Hf (render_in_sync _))
    as (_ & _ & Hd).
  exact Hd.
Defined.

(** X16: a successful submit empties the field, so submitting again at
    once hits the guard: the second submit changes neither store, state
    nor document and makes no host call besides the two on the event.  No
    text is ever added twice by a repeated submit. *)
Theorem X16_double_submit (w : World) :
  textEl_value (dom (handleSubmit w)) = ""
  /\ same_page (handleSubmit (handleSubmit w)) (handleSubmit w)
  /\ trace (handleSubmit (handleSubmit w))
     = (trace (handleSubmit w) ++ [PreventDefault; StopPropagation])%list.
Proof.
  assert (textEl_value (dom (handleSubmit w)) = "") as Hv.
  { destruct (decide (textEl_value (dom w) = "")) as [Hv|Hv].
    - by rewrite handleSubmit_empty.
    - by rewrite handleSubmit_nonempty_eq. }
  split; [done|]. by rewrite (handleSubmit_empty (handleSubmit w)).
Qed.

(** ** Validity marker and submit *)

Lemma length_truthy (v : string) :
  (0 <? String.length v)%nat = truthy_string v.
Proof. by destruct v. Qed.

Lemma handleForm_eq (w : World) :
  heap (handleForm w) = heap w
  /\ state (handleForm w)
     = {| hideCompleted := hideCompleted (state w);
          formIsValid := truthy_string (textEl_value (dom w));
          todos := todos (state w) |}
  /\ textEl_value (dom (handleForm w)) = textEl_value (dom w)
  /\ form_className (dom (handleForm w))
     = (if truthy_string (textEl_value (dom w)) then "is-valid" else "").
Proof.
  unfold handleForm. rewrite render_heap, render_state, render_dom.
  unfold getFormClassName. cbn [set_state heap state dom formIsValid
    textEl_value form_className]. by rewrite length_truthy.
Qed.

(** X17: [handleSubmit] does not recompute validity.  After typing a
    non-empty value ([keyup]) and submitting it, the field is empty but the
    form still carries [is-valid]; the marker goes away only with the next
    [keyup]. *)
Theorem X17_stale_valid_marker (w : World) :
  textEl_value (dom w) <> "" ->
  let w' := handleSubmit (handleForm w) in
  textEl_value (dom w') = ""
  /\ formIsValid (state w') = true
  /\ form_className (dom w') = "is-valid"
  /\ form_className (dom (handleForm w')) = "".
Proof.
  intros Hv w'. destruct (handleForm_eq w) as (_ & Hst & Hval & _).
  assert (truthy_string (textEl_value (dom w)) = true) as Ht.
  { destruct (truthy_string _) eqn:E; [done|].
    by apply truthy_string_empty in E. }
  assert (textEl_value (dom (handleForm w)) <> "") as Hv' by by rewrite Hval.
  assert (textEl_value (dom w') = "") as Hempty
    by (subst w'; by rewrite handleSubmit_nonempty_eq).
  split_and!.
  - done.
  - subst w'. destruct (handleSubmit_flags (handleForm w)) as (_ & -> & _).
    by rewrite Hst, Ht.
  - subst w'. rewrite handleSubmit_nonempty_eq by done.
    cbn [dom form_className]. unfold getFormClassName. by rewrite Hst, Ht.
  - destruct (handleForm_eq w') as (_ & _ & _ & ->). by rewrite Hempty.
Qed.

Lemma X17_stale_valid_marker_witness :
  textEl_value (dom (handleSubmit (handleForm w_blank))) = ""
  /\ form_className (dom (handleSubmit (handleForm w_blank))) = "is-valid".
Proof.
  assert (textEl_value (dom w_blank) <> "") as Hv by discriminate.
  pose proof (X17_stale_valid_marker w_blank Hv) as (He & _ & Hc & _).
  exact (conj He Hc).
Defined.

(** X18: the validity test of [handleForm] and the guard of [handleSubmit]
    agree: after a [keyup], the form is marked valid exactly when a submit
    would add an item. *)
Theorem X18_valid_marker_predicts_submit (w : World) :
  let w1 := handleForm w in
  formIsValid (state w1) = truthy_string (textEl_value (dom w))
  /\ length (todos (state (handleSubmit w1)))
     = (length (todos (state w)) + (if formIsValid (state w1) then 1 else 0))
         %nat
  /\ (formIsValid (state w1) = false ->
      same_page (handleSubmit w1) w1).
Proof.
  cbn zeta. destruct (handleForm_eq w) as (_ & Hst & Hval & _).
  rewrite Hst. cbn [formIsValid]. split; [done|].
  destruct (truthy_string (textEl_value (dom w))) eqn:E.
  - assert (textEl_value (dom (handleForm w)) <> "") as Hv.
    { rewrite Hval. intros H0. by rewrite H0 in E. }
    split; [|done]. rewrite handleSubmit_nonempty_eq by done.
    cbn [state]. unfold todos_push. cbn [set_state set_heap state todos].
    by rewrite Hst, length_app.
  - apply truthy_string_empty in E.
    rewrite handleSubmit_empty by by rewrite Hval.
    cbn [state]. rewrite Hst. cbn [todos]. split; [lia|done].
Qed.
